(** * cds-videos: [cds/modules/theme/static/js/main.js]

    The file registers two DOM-ready callbacks.  The first bootstraps
    AngularJS module lists onto three containers looked up by id; the
    second binds a focus and a blur listener on the navbar search input,
    which add and remove the class [cds-active-search] on every element
    matching [.cds-navbar-form].

    The page is embedded as a list of elements in document order; a node
    is named by its position.  JavaScript exceptions are explicit: a call
    into the framework either completes or throws, and a throw abandons
    the rest of the enclosing function body. *)

From stdpp Require Import prelude strings gmap.

#[local] Set Warnings "-clear-no-such-hyp".

Open Scope string_scope.
Open Scope list_scope.
Open Scope nat_scope.

(** ** The DOM *)

(** An element, as far as this file can observe it: the [id] attribute
    (the empty string when there is none) and the tokens of the [class]
    attribute, in attribute order. *)
Record element := Element {
  el_id : string;
  el_classes : list string
}.

#[global] Instance element_eq_dec : EqDecision element.
Proof. solve_decision. Defined.

(** The set view of the class attribute ([classList] read as a set). *)
Definition class_set (e : element) : gset string :=
  list_to_set (el_classes e).

Definition has_class (c : string) (e : element) : Prop :=
  c ∈ el_classes e.

#[global] Instance has_class_dec c e : Decision (has_class c e).
Proof. unfold has_class. apply _. Defined.

(** Modelled from the spec: the browser's [document.getElementById], which
    is not part of the repository.  It yields the first element in
    document order that carries the id, or [null] (here [None]). *)
Definition getElementById (d : list element) (id : string) : option nat :=
  fst <$> list_find (λ e, el_id e = id) d.

(** ** jQuery *)

(** Positions, counted from [n], of the elements that satisfy [P]. *)
Fixpoint positions (P : element → Prop) `{!∀ e, Decision (P e)}
    (n : nat) (d : list element) : list nat :=
  match d with
  | [] => []
  | e :: d' =>
      if decide (P e) then n :: positions P (S n) d'
      else positions P (S n) d'
  end.

(** Modelled from the spec: jQuery's selector engine for a class selector,
    [$(".c")]; the library is not part of the repository.  The result is
    the collection of all matching nodes, in document order. *)
Definition jq_class (c : string) (d : list element) : list nat :=
  positions (has_class c) 0 d.

(** Modelled from the spec: jQuery's id selector, [$("#id")], which
    resolves through [getElementById] and so holds at most one node. *)
Definition jq_id (id : string) (d : list element) : list nat :=
  match getElementById d id with
  | Some i => [i]
  | None => []
  end.

(** Modelled from the spec: jQuery's [.each], the loop under [addClass]
    and [removeClass]: the update [f] is applied to every node of the
    collection in turn.  An empty collection leaves the page as it is. *)
Definition jq_each (f : element → element) (sel : list nat)
    (d : list element) : list element :=
  foldl (λ acc i, alter f i acc) d sel.

(** Modelled from the spec: the class attribute updates inside jQuery's
    [addClass] and [removeClass], token by token.  A token is appended
    only when it is not present yet ("adding an already-present class is
    a no-op"); removal drops every occurrence and is a no-op when there
    is none. *)
Definition add_token (c : string) (cs : list string) : list string :=
  if decide (c ∈ cs) then cs else cs ++ [c].

(** Modelled from the spec: the removal half of the same update. *)
Definition remove_token (c : string) (cs : list string) : list string :=
  filter (λ x, x ≠ c) cs.

Definition with_classes (f : list string → list string) (e : element)
    : element :=
  Element (el_id e) (f (el_classes e)).

(** Modelled from the spec: jQuery's [.addClass(c)], which is not part of
    the repository: [c] is added to the class attribute of every node of
    the collection. *)
Definition addClass (c : string) (sel : list nat) (d : list element)
    : list element :=
  jq_each (with_classes (add_token c)) sel d.

(** Modelled from the spec: jQuery's [.removeClass(c)], likewise. *)
Definition removeClass (c : string) (sel : list nat) (d : list element)
    : list element :=
  jq_each (with_classes (remove_token c)) sel d.

(** ** Events and listeners *)

Inductive event_type := Focus | Blur | OtherEvent.

#[global] Instance event_type_eq_dec : EqDecision event_type.
Proof. solve_decision. Defined.

(** The two anonymous functions that [main.js] passes to [.focus] and
    [.blur]. *)
Inductive listener := focus_listener | blur_listener.

#[global] Instance listener_eq_dec : EqDecision listener.
Proof. solve_decision. Defined.

Record binding := Binding {
  b_node : nat;
  b_type : event_type;
  b_fn : listener
}.

#[global] Instance binding_eq_dec : EqDecision binding.
Proof. solve_decision. Defined.

(** A page: the elements and the listeners bound so far, oldest first. *)
Record page := Page {
  dom : list element;
  bound : list binding
}.

(** The page as the browser hands it to the ready callbacks. *)
Definition loaded (d : list element) : page := Page d [].

(** Modelled from the spec: jQuery's [.focus(fn)] / [.blur(fn)] with an
    argument, i.e. [.on(type, fn)]: the listener is bound on every node
    of the collection. *)
Definition jq_on (ty : event_type) (fn : listener) (sel : list nat)
    (p : page) : page :=
  Page (dom p) (bound p ++ ((λ i, Binding i ty fn) <$> sel)).

Record event := Event {
  ev_type : event_type;
  ev_node : nat
}.

(** ** [main.js], second ready callback *)

(** Bodies of the two listeners.  The selector is evaluated inside the
    body, on the page as it is when the listener runs. *)
Definition call_listener (fn : listener) (d : list element) : list element :=
  match fn with
  | focus_listener =>
      addClass "cds-active-search" (jq_class "cds-navbar-form" d) d
  | blur_listener =>
      removeClass "cds-active-search" (jq_class "cds-navbar-form" d) d
  end.

Definition ready_search (p : page) : page :=
  let input := jq_id "cds-navbar-form-input" (dom p) in
  jq_on Blur blur_listener input (jq_on Focus focus_listener input p).

(** Event dispatch.  Focus and blur do not bubble, so the listeners that
    run are those bound on the target itself for that type, in binding
    order. *)
Definition listens (ev : event) (b : binding) : Prop :=
  b_node b = ev_node ev ∧ b_type b = ev_type ev.

#[global] Instance listens_dec ev b : Decision (listens ev b).
Proof. unfold listens. apply _. Defined.

Definition dispatch (ev : event) (p : page) : page :=
  Page (foldl (λ d b, call_listener (b_fn b) d) (dom p)
          (filter (listens ev) (bound p)))
       (bound p).

(** The lifetime of a page loaded as [d0]: the ready callback runs, then
    events arrive one at a time.  [lifetime d0 evs p] says that [p] is the
    page after the events [evs]. *)
Inductive lifetime (d0 : list element) : list event → page → Prop :=
  | lifetime_ready :
      lifetime d0 [] (ready_search (loaded d0))
  | lifetime_event evs p ev :
      lifetime d0 evs p →
      lifetime d0 (evs ++ [ev]) (dispatch ev p).

Definition run (d0 : list element) (evs : list event) : page :=
  foldl (λ p ev, dispatch ev p) (ready_search (loaded d0)) evs.

(** A focus event on the node that [$("#cds-navbar-form-input")] resolved
    to when the ready callback ran. *)
Definition focuses_input (d0 : list element) (ev : event) : Prop :=
  ev_type ev = Focus ∧
  getElementById d0 "cds-navbar-form-input" = Some (ev_node ev).

#[global] Instance focuses_input_dec d0 ev : Decision (focuses_input d0 ev).
Proof. unfold focuses_input. apply _. Defined.

Definition blurs_input (d0 : list element) (ev : event) : Prop :=
  ev_type ev = Blur ∧
  getElementById d0 "cds-navbar-form-input" = Some (ev_node ev).

#[global] Instance blurs_input_dec d0 ev : Decision (blurs_input d0 ev).
Proof. unfold blurs_input. apply _. Defined.

(** The containers of a page and whether the marker class is on them. *)
Definition is_container (e : element) : Prop := has_class "cds-navbar-form" e.
Definition is_active (e : element) : Prop := has_class "cds-active-search" e.

#[global] Instance is_container_dec e : Decision (is_container e).
Proof. unfold is_container. apply _. Defined.
#[global] Instance is_active_dec e : Decision (is_active e).
Proof. unfold is_active. apply _. Defined.

(** What a listener amounts to, element by element: the class update [f]
    on the containers, nothing elsewhere. *)
Definition on_containers (f : list string → list string) (e : element)
    : element :=
  if decide (is_container e) then with_classes f e else e.

Definition all_active (d : list element) : Prop :=
  ∀ i e, d !! i = Some e → is_container e → is_active e.

Definition none_active (d : list element) : Prop :=
  ∀ i e, d !! i = Some e → is_container e → ¬ is_active e.

(** What an observer of the class set sees of an element. *)
Definition view (e : element) : string * gset string :=
  (el_id e, class_set e).

(** [e'] differs from [e] at most in the marker class, and not at all
    unless [e] is a container. *)
Definition same_but_active (e e' : element) : Prop :=
  el_id e' = el_id e ∧
  filter (λ x, x ≠ "cds-active-search") (el_classes e')
  = filter (λ x, x ≠ "cds-active-search") (el_classes e) ∧
  (¬ is_container e → e' = e).

(** One focus, blur, focus round on node [i], and [n] of them in a row. *)
Definition cycle (i : nat) : list event :=
  [Event Focus i; Event Blur i; Event Focus i].

Definition cycles (i n : nat) : list event :=
  mjoin (replicate n (cycle i)).

(** ** AngularJS *)

(** One invocation of [angular.bootstrap]: the root it was handed (a node,
    or [None] for [null]) and the module names. *)
Record call := Call {
  call_root : option nat;
  call_modules : list string
}.

#[global] Instance call_eq_dec : EqDecision call.
Proof. solve_decision. Defined.

(** Modelled from the spec: the framework behind [angular.bootstrap],
    which is not part of the repository.  It is an interface: a type of
    worlds (the page together with the framework's own state), the
    elements of a world, and the effect of a bootstrap call on a world,
    which is the next world, or [None] when the call throws. *)
Class Angular (W : Type) := {
  elements : W → list element;
  bootstrap_effect : option nat → list string → W → option W
}.

(** How a piece of JavaScript ends. *)
Inductive completion (A : Type) :=
  | Normal (a : A)
  | Throw.
Arguments Normal {A} a.
Arguments Throw {A}.

(** The state threaded through the first ready callback: the world, and
    the bootstrap invocations made so far, oldest first. *)
Record js_state (W : Type) := JsState {
  world : W;
  invoked : list call
}.
Arguments JsState {W} world invoked.
Arguments world {W} _.
Arguments invoked {W} _.

Definition js (W A : Type) : Type := js_state W → completion A * js_state W.

#[global] Instance js_ret W : MRet (js W) := λ A a s, (Normal a, s).

#[global] Instance js_bind W : MBind (js W) := λ A B f m s,
  match m s with
  | (Normal a, s') => f a s'
  | (Throw, s') => (Throw, s')
  end.

Definition document_getElementById `{Angular W} (id : string)
    : js W (option nat) :=
  λ s, (Normal (getElementById (elements (world s)) id), s).

(** The invocation is recorded before the framework decides how the call
    ends, so a call that throws is still a call that was made. *)
Definition angular_bootstrap `{Angular W} (root : option nat)
    (modules : list string) : js W unit :=
  λ s,
    let log := invoked s ++ [Call root modules] in
    match bootstrap_effect root modules (world s) with
    | Some w' => (Normal (), JsState w' log)
    | None => (Throw, JsState (world s) log)
    end.

(** ** [main.js], first ready callback *)

Definition ready_bootstrap `{Angular W} : js W unit :=
  root ← document_getElementById "invenio-search";
  angular_bootstrap root
    ["cds"; "angular-loading-bar"; "ngDialog"; "invenioSearch"];;
  root ← document_getElementById "cds-featured-video";
  angular_bootstrap root ["cds"; "invenioSearch"];;
  root ← document_getElementById "cds-recent-videos";
  angular_bootstrap root ["cds"; "invenioSearch"].

(** DOM-ready fires once on a world in which nothing was bootstrapped. *)
Definition dom_ready `{Angular W} (w : W) : completion unit * js_state W :=
  ready_bootstrap (JsState w []).

(** The invocations that were handed a given root. *)
Definition invocations (root : option nat) (log : list call) : list call :=
  filter (λ c, call_root c = root) log.

(** What [getElementById] can hand over for [id] on the elements [d]:
    a node that carries the id, or [None] when no element does. *)
Definition lookup_result (d : list element) (id : string)
    (root : option nat) : Prop :=
  match root with
  | Some i => ∃ e, d !! i = Some e ∧ el_id e = id
  | None => Forall (λ e, el_id e ≠ id) d
  end.

(** ** Two frameworks and some pages *)

(** A framework whose bootstrap always completes and leaves the elements
    of the page alone. *)
Definition lenient : Angular (list element) := {|
  elements := λ d, d;
  bootstrap_effect := λ _ _ d, Some d
|}.

(** A framework in which the module [ngDialog] was never registered:
    asking for it makes the bootstrap throw. *)
Definition without_ngDialog : Angular (list element) := {|
  elements := λ d, d;
  bootstrap_effect := λ _ modules d,
    if decide ("ngDialog" ∈ modules) then None else Some d
|}.

Definition home_page : list element := [
  Element "invenio-search" [];
  Element "cds-navbar-form-input" ["form-control"];
  Element "" ["cds-navbar-form"; "navbar-form"];
  Element "cds-featured-video" [];
  Element "cds-recent-videos" []
].

Definition search_only_page : list element := [
  Element "invenio-search" ["container"]
].

Definition two_forms_page : list element := [
  Element "cds-navbar-form-input" [];
  Element "" ["cds-navbar-form"];
  Element "" ["cds-navbar-form"; "cds-active-search"; "wide"]
].
(** ** Vocabulary for further properties *)

(** The ids the first ready callback looks up, in source order. *)
Definition container_ids : list string :=
  ["invenio-search"; "cds-featured-video"; "cds-recent-videos"].

(** A framework whose bootstrap, whenever it completes, leaves the
    elements of the page as they were. *)
Definition keeps_elements `{Angular W} : Prop :=
  ∀ root modules (w w' : W),
    bootstrap_effect root modules w = Some w' → elements w' = elements w.

(** A class attribute with the marker taken out and put back last. *)
Definition marker_last (cs : list string) : list string :=
  remove_token "cds-active-search" cs ++ ["cds-active-search"].

(** A page on which two elements carry the id of the search input. *)
Definition twin_inputs_page : list element := [
  Element "cds-navbar-form-input" [];
  Element "cds-navbar-form-input" ["second"];
  Element "" ["cds-active-search"; "cds-navbar-form"]
].

(** A page without the search input. *)
Definition no_input_page : list element := [
  Element "" ["cds-navbar-form"; "cds-active-search"];
  Element "cds-featured-video" []
].

(** A framework that refuses a [null] root and otherwise completes. *)
Definition strict : Angular (list element) := {|
  elements := λ d, d;
  bootstrap_effect := λ root _ d, if root is Some _ then Some d else None
|}.

(** * Properties *)

(** ** Selections and updates *)

Section selection.
Context (P : element → Prop) `{!∀ e, Decision (P e)}.

Lemma elem_of_positions n d i :
  i ∈ positions P n d ↔ n ≤ i ∧ ∃ e, d !! (i - n) = Some e ∧ P e.
Proof.
  revert n. induction d as [|a d IH]; intros n; simpl.
  - split; [by intros ?%elem_of_nil | by intros (_ & e & ? & _)].
  - assert (i ∈ positions P (S n) d ↔
            n ≤ i ∧ i ≠ n ∧ ∃ e, (a :: d) !! (i - n) = Some e ∧ P e) as Htl.
    { rewrite IH. split.
      - intros (Hle & e & He & HP). split; [lia|]. split; [lia|].
        exists e. split; [|done].
        replace (i - n) with (S (i - S n)) by lia. done.
      - intros (Hle & Hne & e & He & HP). split; [lia|].
        exists e. split; [|done].
        replace (i - n) with (S (i - S n)) in He by lia. done. }
    destruct (decide (P a)) as [Ha|Ha].
    + rewrite elem_of_cons, Htl. split.
      * intros [->|(? & ? & ?)]; [|done].
        split; [done|]. exists a. by rewrite Nat.sub_diag.
      * intros (Hle & e & He & HP).
        destruct (decide (i = n)) as [->|]; [by left|]. right. eauto.
    + rewrite Htl. split; [by intros (? & ? & ?)|].
      intros (Hle & e & He & HP). split; [done|]. split; [|eauto].
      intros ->. rewrite Nat.sub_diag in He. simpl in He. congruence.
Qed.

Lemma NoDup_positions n d : NoDup (positions P n d).
Proof.
  revert n. induction d as [|a d IH]; intros n; simpl; [constructor|].
  destruct (decide (P a)); [|done].
  constructor; [|done]. rewrite elem_of_positions. lia.
Qed.
End selection.

Lemma elem_of_jq_class c d i :
  i ∈ jq_class c d ↔ ∃ e, d !! i = Some e ∧ has_class c e.
Proof.
  unfold jq_class. rewrite elem_of_positions, Nat.sub_0_r.
  split; [by intros [_ ?]|]. intros ?. split; [lia|done].
Qed.

Lemma lookup_jq_each f sel d j :
  NoDup sel →
  jq_each f sel d !! j = if decide (j ∈ sel) then f <$> d !! j else d !! j.
Proof.
  unfold jq_each. intros Hnd. revert d.
  induction Hnd as [|a sel Ha Hnd IH]; intros d; cbn [foldl].
  - case_decide as Hj; [by apply elem_of_nil in Hj|done].
  - rewrite IH. destruct (decide (j = a)) as [->|Hne].
    + rewrite list_lookup_alter_eq.
      repeat case_decide; try done. set_solver.
    + rewrite list_lookup_alter_ne by done.
      repeat case_decide; try done; set_solver.
Qed.

(** ** The listeners as maps over the page *)

Lemma call_focus_listener d :
  call_listener focus_listener d
  = on_containers (add_token "cds-active-search") <$> d.
Proof.
  apply list_eq; intros j. rewrite list_lookup_fmap.
  unfold call_listener, addClass, jq_class.
  rewrite lookup_jq_each by apply NoDup_positions.
  fold (jq_class "cds-navbar-form" d).
  destruct (d !! j) as [e|] eqn:He; simpl; [|by case_decide].
  unfold on_containers, is_container.
  case_decide as Hsel; rewrite elem_of_jq_class in Hsel; case_decide; try done.
  - destruct Hsel as (e' & ? & ?). congruence.
  - destruct Hsel. eauto.
Qed.

Lemma call_blur_listener d :
  call_listener blur_listener d
  = on_containers (remove_token "cds-active-search") <$> d.
Proof.
  apply list_eq; intros j. rewrite list_lookup_fmap.
  unfold call_listener, removeClass, jq_class.
  rewrite lookup_jq_each by apply NoDup_positions.
  fold (jq_class "cds-navbar-form" d).
  destruct (d !! j) as [e|] eqn:He; simpl; [|by case_decide].
  unfold on_containers, is_container.
  case_decide as Hsel; rewrite elem_of_jq_class in Hsel; case_decide; try done.
  - destruct Hsel as (e' & ? & ?). congruence.
  - destruct Hsel. eauto.
Qed.

(** ** Tokens *)

Lemma elem_of_add_token c cs x : x ∈ add_token c cs ↔ x = c ∨ x ∈ cs.
Proof.
  unfold add_token. case_decide; [|rewrite elem_of_app, list_elem_of_singleton];
    naive_solver.
Qed.

Lemma elem_of_remove_token c cs x : x ∈ remove_token c cs ↔ x ≠ c ∧ x ∈ cs.
Proof. unfold remove_token. by rewrite list_elem_of_filter. Qed.

Lemma remove_token_absent c cs : c ∉ cs → remove_token c cs = cs.
Proof.
  intros Hc. unfold remove_token. induction cs as [|a cs IH]; [done|].
  rewrite filter_cons. rewrite not_elem_of_cons in Hc. destruct Hc as [? ?].
  rewrite decide_True by done. f_equal. auto.
Qed.

Lemma others_add_token c cs :
  filter (λ x, x ≠ c) (add_token c cs) = filter (λ x, x ≠ c) cs.
Proof.
  unfold add_token. case_decide; [done|].
  rewrite filter_app, filter_cons, decide_False, filter_nil by naive_solver.
  apply app_nil_r.
Qed.

Lemma others_remove_token c cs :
  filter (λ x, x ≠ c) (remove_token c cs) = filter (λ x, x ≠ c) cs.
Proof.
  unfold remove_token. rewrite list_filter_filter.
  apply list_filter_iff. naive_solver.
Qed.

Lemma NoDup_add_token c cs : NoDup cs → NoDup (add_token c cs).
Proof.
  intros Hnd. unfold add_token. case_decide; [done|].
  apply NoDup_app. split; [done|]. split; [|apply NoDup_singleton].
  intros x Hx ->%list_elem_of_singleton. done.
Qed.

(** ** The page over its lifetime *)

Lemma bound_ready_search d0 :
  bound (ready_search (loaded d0)) =
    match getElementById d0 "cds-navbar-form-input" with
    | Some i => [Binding i Focus focus_listener; Binding i Blur blur_listener]
    | None => []
    end.
Proof.
  unfold ready_search, jq_on, jq_id, loaded. cbn [dom bound].
  by destruct (getElementById d0 "cds-navbar-form-input").
Qed.

Lemma lifetime_bound d0 evs p :
  lifetime d0 evs p → bound p = bound (ready_search (loaded d0)).
Proof. induction 1; [done|]. by unfold dispatch. Qed.

Lemma lifetime_run d0 evs : lifetime d0 evs (run d0 evs).
Proof.
  induction evs as [|ev evs IH] using rev_ind; [constructor|].
  unfold run. rewrite foldl_snoc. by constructor.
Qed.

Lemma lifetime_unique d0 evs p : lifetime d0 evs p → p = run d0 evs.
Proof.
  induction 1 as [|evs p ev _ IH]; [done|].
  unfold run. rewrite foldl_snoc. by rewrite IH.
Qed.

Lemma dispatch_focus d0 evs p ev :
  lifetime d0 evs p → focuses_input d0 ev →
  dom (dispatch ev p) = on_containers (add_token "cds-active-search") <$> dom p.
Proof.
  intros Hp [Hty Hin]. unfold dispatch. cbn [dom].
  rewrite (lifetime_bound _ _ _ Hp), bound_ready_search, Hin.
  destruct ev as [ty i]; simpl in *; subst ty.
  rewrite !filter_cons, filter_nil. unfold listens; simpl.
  rewrite decide_True, decide_False by naive_solver.
  simpl. apply call_focus_listener.
Qed.

Lemma dispatch_blur d0 evs p ev :
  lifetime d0 evs p → blurs_input d0 ev →
  dom (dispatch ev p)
  = on_containers (remove_token "cds-active-search") <$> dom p.
Proof.
  intros Hp [Hty Hin]. unfold dispatch. cbn [dom].
  rewrite (lifetime_bound _ _ _ Hp), bound_ready_search, Hin.
  destruct ev as [ty i]; simpl in *; subst ty.
  rewrite !filter_cons, filter_nil. unfold listens; simpl.
  rewrite decide_False, decide_True by naive_solver.
  simpl. apply call_blur_listener.
Qed.

Lemma dispatch_idle d0 evs p ev :
  lifetime d0 evs p → ¬ focuses_input d0 ev → ¬ blurs_input d0 ev →
  dom (dispatch ev p) = dom p.
Proof.
  intros Hp Hf Hb. unfold dispatch. cbn [dom].
  rewrite (lifetime_bound _ _ _ Hp), bound_ready_search.
  unfold focuses_input, blurs_input in *.
  destruct (getElementById d0 "cds-navbar-form-input") as [i|]; [|done].
  rewrite !filter_cons, filter_nil. unfold listens; simpl.
  rewrite !decide_False; [done| |]; intros [Hn Ht]; simpl in *;
    [apply Hb | apply Hf]; split; congruence.
Qed.

(** ** Containers keep being containers *)

Lemma is_container_add e :
  is_container (with_classes (add_token "cds-active-search") e)
  ↔ is_container e.
Proof.
  unfold is_container, has_class, with_classes; simpl.
  rewrite elem_of_add_token. naive_solver.
Qed.

Lemma is_container_remove e :
  is_container (with_classes (remove_token "cds-active-search") e)
  ↔ is_container e.
Proof.
  unfold is_container, has_class, with_classes; simpl.
  rewrite elem_of_remove_token. naive_solver.
Qed.

Lemma all_active_focus d :
  all_active (on_containers (add_token "cds-active-search") <$> d).
Proof.
  intros i e' He' Hc. rewrite list_lookup_fmap in He'.
  destruct (d !! i) as [e|]; simplify_eq/=.
  unfold on_containers in *. case_decide; [|done].
  unfold is_active, has_class, with_classes; simpl.
  rewrite elem_of_add_token. by left.
Qed.

Lemma none_active_blur d :
  none_active (on_containers (remove_token "cds-active-search") <$> d).
Proof.
  intros i e' He' Hc. rewrite list_lookup_fmap in He'.
  destruct (d !! i) as [e|]; simplify_eq/=.
  unfold on_containers in *. case_decide; [|done].
  unfold is_active, has_class, with_classes; simpl.
  rewrite elem_of_remove_token. naive_solver.
Qed.

(** ** What a listener leaves alone *)

Lemma same_but_active_refl e : same_but_active e e.
Proof. by repeat split. Qed.

Lemma same_but_active_container e e' :
  same_but_active e e' → is_container e' ↔ is_container e.
Proof.
  intros (_ & Hf & _). unfold is_container, has_class.
  assert (∀ cs : list string, "cds-navbar-form" ∈ cs ↔
    "cds-navbar-form" ∈ filter (λ x, x ≠ "cds-active-search") cs) as Hin.
  { intros cs. rewrite list_elem_of_filter. split; [|by intros [_ ?]].
    intros ?. split; [discriminate|done]. }
  by rewrite (Hin (el_classes e')), (Hin (el_classes e)), Hf.
Qed.

Lemma same_but_active_trans e1 e2 e3 :
  same_but_active e1 e2 → same_but_active e2 e3 → same_but_active e1 e3.
Proof.
  intros H12 H23. pose proof (same_but_active_container _ _ H12) as Hc.
  destruct H12 as (Hid1 & Hf1 & Hn1), H23 as (Hid2 & Hf2 & Hn2).
  split; [congruence|]. split; [congruence|].
  intros Hn. rewrite <-(Hn1 Hn). apply Hn2. by rewrite Hc.
Qed.

Lemma same_but_active_add e :
  same_but_active e (on_containers (add_token "cds-active-search") e).
Proof.
  unfold on_containers. case_decide; [|apply same_but_active_refl].
  split; [done|]. split; [apply others_add_token|done].
Qed.

Lemma same_but_active_remove e :
  same_but_active e (on_containers (remove_token "cds-active-search") e).
Proof.
  unfold on_containers. case_decide; [|apply same_but_active_refl].
  split; [done|]. split; [apply others_remove_token|done].
Qed.

Lemma call_listener_fmap fn d :
  ∃ f, call_listener fn d = on_containers f <$> d ∧
       (∀ e, same_but_active e (on_containers f e)) ∧
       (fn = focus_listener → f = add_token "cds-active-search") ∧
       (fn = blur_listener → f = remove_token "cds-active-search").
Proof.
  destruct fn.
  - exists (add_token "cds-active-search").
    split; [apply call_focus_listener|]. split; [apply same_but_active_add|done].
  - exists (remove_token "cds-active-search").
    split; [apply call_blur_listener|].
    split; [apply same_but_active_remove|done].
Qed.

(** Whatever happened so far, the page is the loaded one up to the marker
    class on its containers. *)
Lemma lifetime_dom d0 evs p :
  lifetime d0 evs p →
  ∃ g, dom p = g <$> d0 ∧ ∀ e, same_but_active e (g e).
Proof.
  induction 1 as [|evs p ev Hp (g & Hg & Hsame)].
  - exists id. split; [by rewrite list_fmap_id|apply same_but_active_refl].
  - destruct (decide (focuses_input d0 ev)) as [Hf|Hf];
      [|destruct (decide (blurs_input d0 ev)) as [Hb|Hb]].
    + exists (on_containers (add_token "cds-active-search") ∘ g).
      rewrite (dispatch_focus _ _ _ _ Hp Hf), Hg, <-list_fmap_compose.
      split; [done|]. intros e.
      eapply same_but_active_trans; [apply Hsame|apply same_but_active_add].
    + exists (on_containers (remove_token "cds-active-search") ∘ g).
      rewrite (dispatch_blur _ _ _ _ Hp Hb), Hg, <-list_fmap_compose.
      split; [done|]. intros e.
      eapply same_but_active_trans; [apply Hsame|apply same_but_active_remove].
    + exists g. by rewrite (dispatch_idle _ _ _ _ Hp Hf Hb).
Qed.

(** ** Class sets *)

Lemma class_set_add e :
  class_set (with_classes (add_token "cds-active-search") e)
  = {["cds-active-search"]} ∪ class_set e.
Proof.
  apply set_eq; intros x. unfold class_set, with_classes; simpl.
  rewrite elem_of_union, !elem_of_list_to_set, elem_of_add_token,
    elem_of_singleton. done.
Qed.

Lemma class_set_remove e :
  class_set (with_classes (remove_token "cds-active-search") e)
  = class_set e ∖ {["cds-active-search"]}.
Proof.
  apply set_eq; intros x. unfold class_set, with_classes; simpl.
  rewrite elem_of_difference, !elem_of_list_to_set, elem_of_remove_token,
    elem_of_singleton. naive_solver.
Qed.

Lemma same_but_active_others e e' :
  same_but_active e e' →
  class_set e' ∖ {["cds-active-search"]}
  = class_set e ∖ {["cds-active-search"]}.
Proof.
  intros (_ & Hf & _). apply set_eq; intros x. unfold class_set.
  rewrite !elem_of_difference, !elem_of_list_to_set, !elem_of_singleton.
  assert (∀ cs : list string, x ∈ cs ∧ x ≠ "cds-active-search" ↔
    x ∈ filter (λ x, x ≠ "cds-active-search") cs) as Hin.
  { intros cs. rewrite list_elem_of_filter. naive_solver. }
  by rewrite (Hin (el_classes e')), (Hin (el_classes e)), Hf.
Qed.

Lemma view_focus_same e e' :
  same_but_active e e' →
  view (on_containers (add_token "cds-active-search") e')
  = view (on_containers (add_token "cds-active-search") e).
Proof.
  intros Hs. pose proof (same_but_active_container _ _ Hs) as Hc.
  pose proof (same_but_active_others _ _ Hs) as Ho.
  destruct Hs as (Hid & _ & Hn). unfold on_containers.
  destruct (decide (is_container e)) as [He|He].
  - rewrite decide_True by by apply Hc. unfold view.
    rewrite !class_set_add. simpl. f_equal; [done|].
    apply set_eq; intros x.
    destruct (decide (x = "cds-active-search")); set_solver.
  - rewrite (Hn He). by rewrite decide_False.
Qed.

(** ** The search box marker *)

(** C2: every focus event on the search input, at any point of the page's
    life, makes the focus listener add [cds-active-search] to the class
    set of each container, so that afterwards every container carries
    it. *)
Theorem focus_adds_active_class d0 evs p ev :
  lifetime d0 evs p → focuses_input d0 ev →
  all_active (dom (dispatch ev p)) ∧
  ∀ i e, dom p !! i = Some e → is_container e →
    ∃ e', dom (dispatch ev p) !! i = Some e' ∧
          class_set e' = {["cds-active-search"]} ∪ class_set e.
Proof.
  intros Hp Hf. rewrite (dispatch_focus _ _ _ _ Hp Hf).
  split; [apply all_active_focus|].
  intros i e He Hc. rewrite list_lookup_fmap, He. simpl.
  eexists. split; [done|].
  unfold on_containers. rewrite decide_True by done. apply class_set_add.
Qed.

Lemma focus_adds_active_class_witness :
  lifetime home_page [Event OtherEvent 0] (run home_page [Event OtherEvent 0]) ∧
  focuses_input home_page (Event Focus 1) ∧
  all_active
    (dom (dispatch (Event Focus 1) (run home_page [Event OtherEvent 0]))).
Proof.
  split; [apply lifetime_run|]. split; [by vm_compute|].
  apply (focus_adds_active_class home_page [Event OtherEvent 0]).
  - apply lifetime_run.
  - by vm_compute.
Defined.

(** C3: every blur event on the search input makes the blur listener
    remove [cds-active-search] from the class set of each container, so
    that afterwards no container carries it. *)
Theorem blur_removes_active_class d0 evs p ev :
  lifetime d0 evs p → blurs_input d0 ev →
  none_active (dom (dispatch ev p)) ∧
  ∀ i e, dom p !! i = Some e → is_container e →
    ∃ e', dom (dispatch ev p) !! i = Some e' ∧
          class_set e' = class_set e ∖ {["cds-active-search"]}.
Proof.
  intros Hp Hb. rewrite (dispatch_blur _ _ _ _ Hp Hb).
  split; [apply none_active_blur|].
  intros i e He Hc. rewrite list_lookup_fmap, He. simpl.
  eexists. split; [done|].
  unfold on_containers. rewrite decide_True by done. apply class_set_remove.
Qed.

Lemma blur_removes_active_class_witness :
  lifetime two_forms_page [Event Focus 0] (run two_forms_page [Event Focus 0]) ∧
  blurs_input two_forms_page (Event Blur 0) ∧
  none_active
    (dom (dispatch (Event Blur 0) (run two_forms_page [Event Focus 0]))).
Proof.
  split; [apply lifetime_run|]. split; [by vm_compute|].
  apply (blur_removes_active_class two_forms_page [Event Focus 0]).
  - apply lifetime_run.
  - by vm_compute.
Defined.

Lemma none_active_Forall d :
  Forall (λ e, is_container e → ¬ is_active e) d → none_active d.
Proof.
  rewrite Forall_forall. intros H i e He. apply H.
  apply list_elem_of_lookup. eauto.
Qed.

Lemma add_token_idemp c cs : add_token c (add_token c cs) = add_token c cs.
Proof.
  unfold add_token at 1. rewrite decide_True; [done|].
  rewrite elem_of_add_token. by left.
Qed.

Lemma on_containers_add_idemp e :
  on_containers (add_token "cds-active-search")
    (on_containers (add_token "cds-active-search") e)
  = on_containers (add_token "cds-active-search") e.
Proof.
  destruct (decide (is_container e)) as [Hc|Hc].
  - assert (on_containers (add_token "cds-active-search") e
            = with_classes (add_token "cds-active-search") e) as ->.
    { unfold on_containers. by rewrite decide_True. }
    unfold on_containers. rewrite decide_True by by apply is_container_add.
    unfold with_classes; simpl. by rewrite add_token_idemp.
  - unfold on_containers at 2. rewrite decide_False by done.
    unfold on_containers. by rewrite decide_False.
Qed.

Lemma on_containers_add_active e :
  is_active e → on_containers (add_token "cds-active-search") e = e.
Proof.
  intros Ha. unfold on_containers. case_decide; [|done].
  unfold with_classes, add_token. rewrite decide_True by done. by destruct e.
Qed.

Lemma on_containers_remove_inactive e :
  ¬ is_active e → on_containers (remove_token "cds-active-search") e = e.
Proof.
  intros Ha. unfold on_containers. case_decide; [|done].
  unfold with_classes. rewrite remove_token_absent by done. by destruct e.
Qed.

(** C7: a focus on a container that already carries [cds-active-search]
    leaves that element exactly as it was; running the focus listener a
    second time changes nothing; and a class attribute without repeated
    tokens stays without repeated tokens. *)
Theorem focus_on_active_is_noop d i e :
  d !! i = Some e → is_active e →
  call_listener focus_listener d !! i = Some e ∧
  call_listener focus_listener (call_listener focus_listener d)
  = call_listener focus_listener d ∧
  ∀ j e1 e1', d !! j = Some e1 →
    call_listener focus_listener d !! j = Some e1' →
    NoDup (el_classes e1) → NoDup (el_classes e1').
Proof.
  intros He Ha. rewrite !call_focus_listener. split; [|split].
  - rewrite list_lookup_fmap, He. simpl. f_equal.
    by apply on_containers_add_active.
  - rewrite <-list_fmap_compose. apply list_fmap_ext. intros ? x _. simpl.
    apply on_containers_add_idemp.
  - intros j e1 e1' H1 H1' Hnd. rewrite list_lookup_fmap, H1 in H1'.
    simplify_eq/=. unfold on_containers. case_decide; [|done].
    by apply NoDup_add_token.
Qed.

Lemma focus_on_active_is_noop_witness :
  two_forms_page !! 2
    = Some (Element "" ["cds-navbar-form"; "cds-active-search"; "wide"]) ∧
  is_active (Element "" ["cds-navbar-form"; "cds-active-search"; "wide"]) ∧
  call_listener focus_listener two_forms_page !! 2
    = Some (Element "" ["cds-navbar-form"; "cds-active-search"; "wide"]).
Proof.
  split; [reflexivity|]. split; [compute_done|].
  apply (focus_on_active_is_noop two_forms_page 2); [reflexivity|compute_done].
Defined.

(** C8: if no container carries [cds-active-search] when the page is
    loaded and the search input never receives a focus event, then no
    container carries the class at any point of the page's life; the
    elements in fact stay as they were loaded. *)
Theorem no_focus_never_active d0 evs :
  none_active d0 →
  Forall (λ ev, ¬ focuses_input d0 ev) evs →
  ∀ evs' p, evs' `prefix_of` evs → lifetime d0 evs' p →
    none_active (dom p) ∧ dom p = d0.
Proof.
  intros H0 Hnf evs' p Hpre Hp. rewrite Forall_forall in Hnf.
  assert (∀ ev, ev ∈ evs' → ¬ focuses_input d0 ev) as Hnf'.
  { intros ev Hev. apply Hnf. by eapply elem_of_prefix. }
  clear Hpre Hnf. cut (dom p = d0); [by intros ->|].
  induction Hp as [|evs' p ev Hp IH]; [done|].
  assert (dom p = d0) as Hd.
  { apply IH. intros ev' Hev'. apply Hnf'. apply elem_of_app. by left. }
  assert (¬ focuses_input d0 ev) as Hf.
  { apply Hnf'. apply elem_of_app. right. by apply list_elem_of_singleton. }
  destruct (decide (blurs_input d0 ev)) as [Hb|Hb].
  - rewrite (dispatch_blur _ _ _ _ Hp Hb), Hd.
    rewrite <-(list_fmap_id d0) at 2. apply list_fmap_ext.
    intros i e He. simpl. destruct (decide (is_container e)) as [Hc|Hc].
    + apply on_containers_remove_inactive. by eapply H0.
    + unfold on_containers. by rewrite decide_False.
  - by rewrite (dispatch_idle _ _ _ _ Hp Hf Hb).
Qed.

Lemma no_focus_never_active_witness :
  none_active home_page ∧
  none_active
    (dom (run home_page [Event Blur 1; Event Focus 0; Event OtherEvent 2])).
Proof.
  assert (none_active home_page) as H0
    by (apply none_active_Forall; compute_done).
  split; [exact H0|].
  apply (no_focus_never_active home_page
           [Event Blur 1; Event Focus 0; Event OtherEvent 2] H0
           ltac:(compute_done)
           [Event Blur 1; Event Focus 0; Event OtherEvent 2]).
  - done.
  - apply lifetime_run.
Defined.

(** C9: one run of the focus or of the blur listener keeps the number of
    elements, and takes every element to one with the same id and the
    same class tokens other than [cds-active-search], in the same order;
    an element that does not match [.cds-navbar-form] is not touched at
    all.  Dispatching an event leaves the bound listeners as they are. *)
Theorem listener_changes_only_marker fn d i e :
  d !! i = Some e →
  length (call_listener fn d) = length d ∧
  (∀ ev p, bound (dispatch ev p) = bound p) ∧
  ∃ e', call_listener fn d !! i = Some e' ∧
        same_but_active e e' ∧
        ∀ c, c ≠ "cds-active-search" →
             (c ∈ class_set e' ↔ c ∈ class_set e).
Proof.
  intros He. destruct (call_listener_fmap fn d) as (f & -> & Hsame & _).
  split; [apply length_fmap|]. split; [done|].
  exists (on_containers f e). rewrite list_lookup_fmap, He.
  split; [done|]. split; [apply Hsame|].
  intros c Hc. pose proof (same_but_active_others _ _ (Hsame e)) as Ho.
  set_solver.
Qed.

Lemma listener_changes_only_marker_witness :
  two_forms_page !! 2
    = Some (Element "" ["cds-navbar-form"; "cds-active-search"; "wide"]) ∧
  ∃ e', call_listener blur_listener two_forms_page !! 2 = Some e' ∧
        same_but_active
          (Element "" ["cds-navbar-form"; "cds-active-search"; "wide"]) e'.
Proof.
  split; [reflexivity|].
  destruct (listener_changes_only_marker blur_listener two_forms_page 2 _
              eq_refl) as (_ & _ & e' & He' & Hs & _).
  by exists e'.
Defined.

(** C10: the listeners resolve [.cds-navbar-form] against the page they
    are run on.  When nothing matches they return the page as it is; when
    several elements match, each of them ends up with the class (focus)
    or without it (blur). *)
Theorem listener_acts_on_every_match fn d :
  (jq_class "cds-navbar-form" d = [] → call_listener fn d = d) ∧
  (∀ i, i ∈ jq_class "cds-navbar-form" d →
     ∃ e', call_listener fn d !! i = Some e' ∧
           (is_active e' ↔ fn = focus_listener)).
Proof.
  split.
  - intros Hsel. destruct fn; unfold call_listener, addClass, removeClass;
      by rewrite Hsel.
  - intros i (e & He & Hc)%elem_of_jq_class.
    destruct fn; [rewrite call_focus_listener|rewrite call_blur_listener];
      rewrite list_lookup_fmap, He; simpl; eexists; (split; [done|]).
    + split; [done|]. intros _.
      eapply (all_active_focus [e] 0); [done|].
      unfold on_containers. rewrite decide_True by done.
      by apply is_container_add.
    + split; [|done]. intros Ha. exfalso.
      eapply (none_active_blur [e] 0); [done| |exact Ha].
      unfold on_containers. rewrite decide_True by done.
      by apply is_container_remove.
Qed.

Lemma listener_acts_on_every_match_witness :
  jq_class "cds-navbar-form" search_only_page = [] ∧
  call_listener focus_listener search_only_page = search_only_page ∧
  jq_class "cds-navbar-form" two_forms_page = [1; 2] ∧
  (∃ e', call_listener focus_listener two_forms_page !! 1 = Some e' ∧
         (is_active e' ↔ focus_listener = focus_listener)) ∧
  (∃ e', call_listener focus_listener two_forms_page !! 2 = Some e' ∧
         (is_active e' ↔ focus_listener = focus_listener)).
Proof.
  split; [reflexivity|].
  split.
  { apply (listener_acts_on_every_match focus_listener search_only_page).
    reflexivity. }
  split; [reflexivity|].
  split;
    apply (listener_acts_on_every_match focus_listener two_forms_page);
    compute_done.
Defined.

(** ** Repeated focus and blur *)

Lemma run_snoc d0 evs ev : run d0 (evs ++ [ev]) = dispatch ev (run d0 evs).
Proof. unfold run. by rewrite foldl_snoc. Qed.

Lemma run_single d0 ev : run d0 [ev] = dispatch ev (run d0 []).
Proof. done. Qed.

Lemma focus_view d0 evs p ev :
  lifetime d0 evs p → focuses_input d0 ev →
  view <$> dom (dispatch ev p)
  = view <$> (on_containers (add_token "cds-active-search") <$> d0).
Proof.
  intros Hp Hf. rewrite (dispatch_focus _ _ _ _ Hp Hf).
  destruct (lifetime_dom _ _ _ Hp) as (g & -> & Hsame).
  rewrite <-!list_fmap_compose. apply list_fmap_ext. intros ? e _. simpl.
  apply view_focus_same, Hsame.
Qed.

Lemma on_containers_remove_add e :
  ¬ is_active e →
  on_containers (remove_token "cds-active-search")
    (on_containers (add_token "cds-active-search") e) = e.
Proof.
  intros Ha. destruct (decide (is_container e)) as [Hc|Hc].
  - assert (on_containers (add_token "cds-active-search") e
            = with_classes (add_token "cds-active-search") e) as ->.
    { unfold on_containers. by rewrite decide_True. }
    unfold on_containers. rewrite decide_True by by apply is_container_add.
    unfold with_classes, add_token; simpl. rewrite decide_False by done.
    unfold remove_token. rewrite filter_app, filter_cons, filter_nil.
    rewrite decide_False by naive_solver. rewrite app_nil_r.
    fold (remove_token "cds-active-search" (el_classes e)).
    rewrite remove_token_absent by done. by destruct e.
  - unfold on_containers at 2. rewrite decide_False by done.
    unfold on_containers. by rewrite decide_False.
Qed.

(** With the marker absent at load time the page only ever is the loaded
    one or the loaded one with the marker on its containers. *)
Lemma lifetime_two_states d0 evs p :
  none_active d0 → lifetime d0 evs p →
  dom p = d0 ∨
  dom p = on_containers (add_token "cds-active-search") <$> d0.
Proof.
  intros H0. induction 1 as [|evs p ev Hp IH]; [by left|].
  destruct (decide (focuses_input d0 ev)) as [Hf|Hf];
    [|destruct (decide (blurs_input d0 ev)) as [Hb|Hb]].
  - right. rewrite (dispatch_focus _ _ _ _ Hp Hf).
    destruct IH as [->| ->]; [done|].
    rewrite <-list_fmap_compose. apply list_fmap_ext. intros ? e _. simpl.
    apply on_containers_add_idemp.
  - left. rewrite (dispatch_blur _ _ _ _ Hp Hb).
    destruct IH as [->| ->].
    + rewrite <-(list_fmap_id d0) at 2. apply list_fmap_ext.
      intros j e He. simpl. destruct (decide (is_container e)) as [Hc|Hc].
      * apply on_containers_remove_inactive. by eapply H0.
      * unfold on_containers. by rewrite decide_False.
    + rewrite <-list_fmap_compose. rewrite <-(list_fmap_id d0) at 2.
      apply list_fmap_ext. intros j e He. simpl.
      destruct (decide (is_container e)) as [Hc|Hc].
      * apply on_containers_remove_add. by eapply H0.
      * unfold on_containers at 2. rewrite decide_False by done.
        unfold on_containers. by rewrite decide_False.
  - rewrite (dispatch_idle _ _ _ _ Hp Hf Hb). exact IH.
Qed.

Lemma cycles_end i n :
  1 ≤ n → ∃ evs, cycles i n = evs ++ [Event Focus i].
Proof.
  intros Hn. destruct n as [|m]; [lia|]. unfold cycles.
  rewrite replicate_S_end, join_app. simpl.
  exists (mjoin (replicate m (cycle i)) ++ [Event Focus i; Event Blur i]).
  by rewrite <-(assoc_L (++)).
Qed.

Lemma elem_of_cycles i n ev :
  ev ∈ cycles i n → ev_node ev = i.
Proof.
  unfold cycles. rewrite list_elem_of_join.
  intros (l & Hev & [-> _]%elem_of_replicate). unfold cycle in Hev.
  repeat (apply elem_of_cons in Hev as [->|Hev]; [done|]).
  by apply elem_of_nil in Hev.
Qed.

(** C6: for every [n ≥ 1], after [n] focus, blur, focus rounds on the
    search input every element has the id and the class set it has after
    a single focus; along the way the containers carry the marker after
    each focus and lack it after each blur.  When the marker is absent at
    load time the two pages are equal token for token. *)
Theorem cycles_like_single_focus d0 i n :
  getElementById d0 "cds-navbar-form-input" = Some i → 1 ≤ n →
  view <$> dom (run d0 (cycles i n)) = view <$> dom (run d0 [Event Focus i]) ∧
  (∀ evs ev, evs ++ [ev] `prefix_of` cycles i n →
     (ev_type ev = Focus → all_active (dom (run d0 (evs ++ [ev])))) ∧
     (ev_type ev = Blur → none_active (dom (run d0 (evs ++ [ev]))))) ∧
  (none_active d0 →
     dom (run d0 (cycles i n)) = dom (run d0 [Event Focus i])).
Proof.
  intros Hi Hn. destruct (cycles_end i n Hn) as (evs0 & Hend).
  assert (focuses_input d0 (Event Focus i)) as Hfi by done.
  split; [|split].
  - rewrite Hend, run_snoc, run_single.
    rewrite (focus_view d0 evs0) by (apply lifetime_run || done).
    by rewrite (focus_view d0 []) by (apply lifetime_run || done).
  - intros evs ev Hpre.
    assert (ev_node ev = i) as Hnode.
    { apply (elem_of_cycles i n). eapply elem_of_prefix; [|exact Hpre].
      apply elem_of_app. right. by apply list_elem_of_singleton. }
    rewrite run_snoc. split; intros Hty.
    + rewrite (dispatch_focus d0 evs) by (apply lifetime_run || by subst).
      apply all_active_focus.
    + rewrite (dispatch_blur d0 evs) by (apply lifetime_run || by subst).
      apply none_active_blur.
  - intros H0. rewrite Hend, run_snoc, run_single.
    rewrite (dispatch_focus d0 evs0) by (apply lifetime_run || done).
    rewrite (dispatch_focus d0 []) by (apply lifetime_run || done).
    destruct (lifetime_two_states d0 evs0 _ H0 (lifetime_run _ _)) as [->| ->].
    + done.
    + rewrite <-list_fmap_compose. apply list_fmap_ext. intros ? e _. simpl.
      apply on_containers_add_idemp.
Qed.

Lemma cycles_like_single_focus_witness :
  getElementById two_forms_page "cds-navbar-form-input" = Some 0 ∧
  1 ≤ 2 ∧
  view <$> dom (run two_forms_page (cycles 0 2))
  = view <$> dom (run two_forms_page [Event Focus 0]).
Proof.
  split; [reflexivity|]. split; [lia|].
  apply (cycles_like_single_focus two_forms_page 0 2); [reflexivity|lia].
Defined.

(** ** Bootstrapping the containers *)

Lemma getElementById_Some d id i :
  getElementById d id = Some i ↔
  ∃ e, d !! i = Some e ∧ el_id e = id ∧
       ∀ j e', d !! j = Some e' → j < i → el_id e' ≠ id.
Proof.
  unfold getElementById. rewrite fmap_Some. split.
  - intros ([j e] & Hfind & ->). apply list_find_Some in Hfind. eauto.
  - intros (e & ?). exists (i, e). by rewrite list_find_Some.
Qed.

Lemma getElementById_None d id :
  getElementById d id = None ↔ Forall (λ e, el_id e ≠ id) d.
Proof. unfold getElementById. by rewrite fmap_None, list_find_None. Qed.

Section bootstrap.
Context `{Angular W}.

(** The callback returns normally exactly when each of its three calls
    does, and then the three calls are all that was invoked. *)
Lemma dom_ready_normal (w : W) (s' : js_state W) :
  dom_ready w = (Normal (), s') ↔
  ∃ w1 w2,
    bootstrap_effect (getElementById (elements w) "invenio-search")
      ["cds"; "angular-loading-bar"; "ngDialog"; "invenioSearch"] w
      = Some w1 ∧
    bootstrap_effect (getElementById (elements w1) "cds-featured-video")
      ["cds"; "invenioSearch"] w1 = Some w2 ∧
    bootstrap_effect (getElementById (elements w2) "cds-recent-videos")
      ["cds"; "invenioSearch"] w2 = Some (world s') ∧
    invoked s' = [
      Call (getElementById (elements w) "invenio-search")
        ["cds"; "angular-loading-bar"; "ngDialog"; "invenioSearch"];
      Call (getElementById (elements w1) "cds-featured-video")
        ["cds"; "invenioSearch"];
      Call (getElementById (elements w2) "cds-recent-videos")
        ["cds"; "invenioSearch"]].
Proof.
  unfold dom_ready, ready_bootstrap, mbind, js_bind,
    document_getElementById, angular_bootstrap. cbn [world invoked].
  split.
  - destruct (bootstrap_effect _ _ w) as [w1|] eqn:H1; [|done].
    cbn [world invoked].
    destruct (bootstrap_effect _ _ w1) as [w2|] eqn:H2; [|done].
    cbn [world invoked].
    destruct (bootstrap_effect _ _ w2) as [w3|] eqn:H3; [|done].
    intros [= <-]. exists w1, w2. by split_and!.
  - intros (w1 & w2 & H1 & H2 & H3 & Hlog). rewrite H1. cbn [world invoked].
    rewrite H2. cbn [world invoked]. rewrite H3.
    destruct s' as [w3 log]. simpl in *. by rewrite Hlog.
Qed.
End bootstrap.

Lemma getElementById_lookup_result d id :
  lookup_result d id (getElementById d id).
Proof.
  unfold lookup_result. destruct (getElementById d id) as [i|] eqn:Hget.
  - apply getElementById_Some in Hget as (e & ? & ? & _). eauto.
  - by apply getElementById_None.
Qed.

(** C1, as amended: when none of the three bootstrap calls throws, the
    callback has invoked [angular.bootstrap] exactly three times, in
    source order: once with the result of looking up [invenio-search] and
    the four-module list, once with the result of looking up
    [cds-featured-video] and once with that of [cds-recent-videos], each
    with the two-module list.  Roots that differ from one another were
    each bootstrapped exactly once. *)
Theorem bootstrap_each_container_once `{Angular W} (w : W) (s' : js_state W) :
  dom_ready w = (Normal (), s') →
  ∃ w1 w2 r1 r2 r3,
    r1 = getElementById (elements w) "invenio-search" ∧
    bootstrap_effect r1
      ["cds"; "angular-loading-bar"; "ngDialog"; "invenioSearch"] w
      = Some w1 ∧
    r2 = getElementById (elements w1) "cds-featured-video" ∧
    bootstrap_effect r2 ["cds"; "invenioSearch"] w1 = Some w2 ∧
    r3 = getElementById (elements w2) "cds-recent-videos" ∧
    invoked s' = [
      Call r1 ["cds"; "angular-loading-bar"; "ngDialog"; "invenioSearch"];
      Call r2 ["cds"; "invenioSearch"];
      Call r3 ["cds"; "invenioSearch"]] ∧
    (r1 ≠ r2 → r1 ≠ r3 → r2 ≠ r3 →
     invocations r1 (invoked s') = [
       Call r1 ["cds"; "angular-loading-bar"; "ngDialog"; "invenioSearch"]] ∧
     invocations r2 (invoked s') = [Call r2 ["cds"; "invenioSearch"]] ∧
     invocations r3 (invoked s') = [Call r3 ["cds"; "invenioSearch"]]).
Proof.
  intros (w1 & w2 & H1 & H2 & H3 & Hlog)%dom_ready_normal.
  eexists w1, w2, _, _, _. split_and!; try done.
  intros H12 H13 H23. rewrite Hlog. unfold invocations.
  rewrite !filter_cons, filter_nil. simpl.
  repeat case_decide; first [congruence | by split_and!].
Qed.

Lemma bootstrap_each_container_once_witness :
  @dom_ready _ lenient home_page =
    (Normal (), JsState home_page [
       Call (Some 0) ["cds"; "angular-loading-bar"; "ngDialog"; "invenioSearch"];
       Call (Some 3) ["cds"; "invenioSearch"];
       Call (Some 4) ["cds"; "invenioSearch"]]) ∧
  invocations (Some 3) (invoked (@dom_ready _ lenient home_page).2)
  = [Call (Some 3) ["cds"; "invenioSearch"]].
Proof.
  split; [reflexivity|].
  destruct (@bootstrap_each_container_once _ lenient home_page _ eq_refl)
    as (w1 & w2 & r1 & r2 & r3 & -> & [= <-] & -> & [= <-] & -> & _ & Hinv).
  apply Hinv; compute_done.
Defined.

(** C1 as it was stated fails where a bootstrap call throws: on a page
    with all three containers and a framework that lacks [ngDialog], the
    first call throws, the callback ends there, and the featured-video
    container (node 3) is never bootstrapped. *)
Lemma bootstrap_stops_at_first_throw :
  getElementById home_page "cds-featured-video" = Some 3 ∧
  @dom_ready _ without_ngDialog home_page =
    (Throw, JsState home_page [
       Call (Some 0)
         ["cds"; "angular-loading-bar"; "ngDialog"; "invenioSearch"]]) ∧
  invocations (Some 3)
    (invoked (@dom_ready _ without_ngDialog home_page).2) = [].
Proof. split; [reflexivity|]. split; reflexivity. Qed.

(** C4, as amended: the callback has no guard on the lookups.  When none
    of the calls throws, three calls are made whichever containers the
    page has, and the root of each is whatever [getElementById] returned
    for its id: a node carrying the id when the container is found, and
    [null] when no element carries it. *)
Theorem bootstrap_receives_lookup_result `{Angular W}
    (w : W) (s' : js_state W) :
  dom_ready w = (Normal (), s') →
  ∃ w1 w2 r1 r2 r3,
    call_root <$> invoked s' = [r1; r2; r3] ∧
    bootstrap_effect r1
      ["cds"; "angular-loading-bar"; "ngDialog"; "invenioSearch"] w
      = Some w1 ∧
    bootstrap_effect r2 ["cds"; "invenioSearch"] w1 = Some w2 ∧
    lookup_result (elements w) "invenio-search" r1 ∧
    lookup_result (elements w1) "cds-featured-video" r2 ∧
    lookup_result (elements w2) "cds-recent-videos" r3.
Proof.
  intros (w1 & w2 & H1 & H2 & H3 & Hlog)%dom_ready_normal.
  eexists w1, w2, _, _, _. rewrite Hlog.
  split_and!; [done|done|done|apply getElementById_lookup_result..].
Qed.

Lemma bootstrap_receives_lookup_result_witness :
  @dom_ready _ lenient search_only_page =
    (Normal (), JsState search_only_page [
       Call (Some 0) ["cds"; "angular-loading-bar"; "ngDialog"; "invenioSearch"];
       Call None ["cds"; "invenioSearch"];
       Call None ["cds"; "invenioSearch"]]) ∧
  ∃ r1 r2 r3,
    [r1; r2; r3] = [Some 0; None; None] ∧
    lookup_result search_only_page "invenio-search" r1 ∧
    lookup_result search_only_page "cds-featured-video" r2 ∧
    lookup_result search_only_page "cds-recent-videos" r3.
Proof.
  split; [reflexivity|].
  destruct (@bootstrap_receives_lookup_result _ lenient search_only_page _
              eq_refl)
    as (w1 & w2 & r1 & r2 & r3 & Hroots & [= <-] & [= <-] & ? & ? & ?).
  by exists r1, r2, r3.
Defined.

(** C4 as it was stated fails on a page without the featured-video
    container: the lookup yields [null], and [null] is what the second
    and third bootstrap calls are handed. *)
Lemma absent_container_is_passed_as_null :
  getElementById search_only_page "cds-featured-video" = None ∧
  invoked (@dom_ready _ lenient search_only_page).2 = [
    Call (Some 0) ["cds"; "angular-loading-bar"; "ngDialog"; "invenioSearch"];
    Call None ["cds"; "invenioSearch"];
    Call None ["cds"; "invenioSearch"]].
Proof. split; reflexivity. Qed.

(** C5: the three calls carry two distinct module lists: the calls for
    [cds-featured-video] and [cds-recent-videos] carry the same list, and
    the list of the call for [invenio-search] contains every module of
    that list and more. *)
Theorem bootstrap_module_lists `{Angular W} (w : W) (s' : js_state W) :
  dom_ready w = (Normal (), s') →
  ∃ m1 m2 m3,
    call_modules <$> invoked s' = [m1; m2; m3] ∧
    m2 = m3 ∧ m1 ≠ m2 ∧ m2 ⊆ m1 ∧ ¬ m1 ⊆ m2 ∧
    length (remove_dups (call_modules <$> invoked s')) = 2.
Proof.
  intros (w1 & w2 & _ & _ & _ & Hlog)%dom_ready_normal. rewrite Hlog.
  eexists _, _, _. split; [reflexivity|]. split; [done|]. split; [done|].
  split_and!; compute_done.
Qed.

Lemma bootstrap_module_lists_witness :
  @dom_ready _ lenient home_page =
    (Normal (), JsState home_page [
       Call (Some 0) ["cds"; "angular-loading-bar"; "ngDialog"; "invenioSearch"];
       Call (Some 3) ["cds"; "invenioSearch"];
       Call (Some 4) ["cds"; "invenioSearch"]]) ∧
  length (remove_dups
    (call_modules <$> invoked (@dom_ready _ lenient home_page).2)) = 2.
Proof.
  split; [reflexivity|].
  destruct (@bootstrap_module_lists _ lenient home_page _ eq_refl)
    as (m1 & m2 & m3 & _ & _ & _ & _ & _ & Hlen).
  exact Hlen.
Defined.

(** * Further properties *)

(** ** The first ready callback, whatever the framework does *)

(** X1: however the three calls end, the callback invokes the bootstrap
    at least once and at most three times; the first invocation is the
    one for [invenio-search]; the module lists invoked are an initial part
    of the three in source order.  When the callback throws, the last
    invocation recorded is the one that threw, and the world is the one
    that call was made in; when it returns, all three were made. *)
Theorem bootstrap_log_shape `{Angular W} (w : W) :
  (∃ log,
     invoked (dom_ready w).2 =
       Call (getElementById (elements w) "invenio-search")
         ["cds"; "angular-loading-bar"; "ngDialog"; "invenioSearch"] :: log ∧
     length log ≤ 2) ∧
  call_modules <$> invoked (dom_ready w).2 `prefix_of` [
    ["cds"; "angular-loading-bar"; "ngDialog"; "invenioSearch"];
    ["cds"; "invenioSearch"];
    ["cds"; "invenioSearch"]] ∧
  ((dom_ready w).1 = Throw →
     ∃ earlier c,
       invoked (dom_ready w).2 = earlier ++ [c] ∧
       bootstrap_effect (call_root c) (call_modules c)
         (world (dom_ready w).2) = None) ∧
  ((dom_ready w).1 = Normal () → length (invoked (dom_ready w).2) = 3).
Proof.
  unfold dom_ready, ready_bootstrap, mbind, js_bind,
    document_getElementById, angular_bootstrap. cbn [world invoked].
  destruct (bootstrap_effect _ _ w) as [w1|] eqn:H1; cbn [world invoked].
  2:{ split_and!; simpl.
      - eexists. split; [done|]. simpl. lia.
      - by eexists [_; _].
      - intros _. eexists [], _. split; [reflexivity|done].
      - done. }
  destruct (bootstrap_effect _ _ w1) as [w2|] eqn:H2; cbn [world invoked].
  2:{ split_and!; simpl.
      - eexists. split; [done|]. simpl. lia.
      - by eexists [_].
      - intros _. eexists [_], _. split; [reflexivity|done].
      - done. }
  destruct (bootstrap_effect _ _ w2) as [w3|] eqn:H3; cbn [world invoked].
  - split_and!; simpl.
    + eexists. split; [done|]. simpl. lia.
    + by exists [].
    + done.
    + done.
  - split_and!; simpl.
    + eexists. split; [done|]. simpl. lia.
    + by exists [].
    + intros _. eexists [_; _], _. split; [reflexivity|done].
    + done.
Qed.

Lemma bootstrap_log_shape_witness :
  (@dom_ready _ strict search_only_page).1 = Throw ∧
  ∃ earlier c,
    invoked (@dom_ready _ strict search_only_page).2 = earlier ++ [c] ∧
    @bootstrap_effect _ strict (call_root c) (call_modules c)
      (world (@dom_ready _ strict search_only_page).2) = None.
Proof.
  split; [reflexivity|].
  apply (@bootstrap_log_shape _ strict search_only_page). reflexivity.
Defined.

(** ** Frameworks that leave the page alone *)

Lemma dom_ready_keeps_elements `{Angular W} (w : W) (s' : js_state W) :
  keeps_elements → dom_ready w = (Normal (), s') →
  elements (world s') = elements w ∧
  invoked s' = [
    Call (getElementById (elements w) "invenio-search")
      ["cds"; "angular-loading-bar"; "ngDialog"; "invenioSearch"];
    Call (getElementById (elements w) "cds-featured-video")
      ["cds"; "invenioSearch"];
    Call (getElementById (elements w) "cds-recent-videos")
      ["cds"; "invenioSearch"]].
Proof.
  intros Hkeep (w1 & w2 & H1 & H2 & H3 & Hlog)%dom_ready_normal.
  pose proof (Hkeep _ _ _ _ H1) as E1. pose proof (Hkeep _ _ _ _ H2) as E2.
  pose proof (Hkeep _ _ _ _ H3) as E3.
  split; [congruence|]. rewrite Hlog. by rewrite E2, E1.
Qed.

Lemma getElementById_inj d id1 id2 i :
  getElementById d id1 = Some i → getElementById d id2 = Some i → id1 = id2.
Proof.
  intros (e1 & He1 & <- & _)%getElementById_Some
         (e2 & He2 & <- & _)%getElementById_Some.
  congruence.
Qed.

(** X2: with a framework that leaves the elements of the page as they
    are, a callback that returns has handed the bootstrap the three
    lookups made on the page as it was loaded.  When the page has all
    three containers these are three different nodes, and every one of
    them was bootstrapped exactly once. *)
Theorem stable_page_bootstraps_three_nodes `{Angular W}
    (w : W) (s' : js_state W) :
  keeps_elements → dom_ready w = (Normal (), s') →
  call_root <$> invoked s' = getElementById (elements w) <$> container_ids ∧
  elements (world s') = elements w ∧
  (Forall (λ id, is_Some (getElementById (elements w) id)) container_ids →
   NoDup (call_root <$> invoked s') ∧
   ∀ c, c ∈ invoked s' → invocations (call_root c) (invoked s') = [c]).
Proof.
  intros Hkeep Hret.
  destruct (dom_ready_keeps_elements w s' Hkeep Hret) as [Hel Hlog].
  rewrite Hlog. split; [done|]. split; [done|].
  intros Hall. unfold container_ids in Hall.
  apply Forall_cons in Hall as [[i1 E1] Hall].
  apply Forall_cons in Hall as [[i2 E2] Hall].
  apply Forall_cons in Hall as [[i3 E3] _].
  rewrite E1, E2, E3.
  assert (i1 ≠ i2) as N12.
  { intros ->. by pose proof (getElementById_inj _ _ _ _ E1 E2). }
  assert (i1 ≠ i3) as N13.
  { intros ->. by pose proof (getElementById_inj _ _ _ _ E1 E3). }
  assert (i2 ≠ i3) as N23.
  { intros ->. by pose proof (getElementById_inj _ _ _ _ E2 E3). }
  split.
  - simpl. repeat (constructor; [set_solver|]). constructor.
  - intros c Hc. unfold invocations.
    repeat (apply elem_of_cons in Hc as [->|Hc]);
      [| | |by apply elem_of_nil in Hc];
      rewrite !filter_cons, filter_nil; simpl;
      repeat case_decide; congruence.
Qed.

Lemma stable_page_bootstraps_three_nodes_witness :
  @keeps_elements _ lenient ∧
  NoDup (call_root <$> invoked (@dom_ready _ lenient home_page).2).
Proof.
  assert (@keeps_elements _ lenient) as Hkeep by (by intros ? ? ? ? [= <-]).
  split; [exact Hkeep|].
  apply (@stable_page_bootstraps_three_nodes _ lenient home_page _ Hkeep
           eq_refl).
  compute_done.
Defined.

(** X3: with such a framework, a callback that returns has handed the
    bootstrap [null] once for every container id that no element of the
    page carries: absent containers do not reduce the number of calls. *)
Theorem null_roots_count_absent_containers `{Angular W}
    (w : W) (s' : js_state W) :
  keeps_elements → dom_ready w = (Normal (), s') →
  length (invoked s') = 3 ∧
  length (invocations None (invoked s')) =
    length (filter (λ id, getElementById (elements w) id = None)
              container_ids).
Proof.
  intros Hkeep Hret.
  destruct (dom_ready_keeps_elements w s' Hkeep Hret) as [_ ->].
  split; [done|]. unfold invocations, container_ids.
  rewrite !filter_cons, !filter_nil. simpl.
  repeat case_decide; simpl; congruence.
Qed.

Lemma null_roots_count_absent_containers_witness :
  @keeps_elements _ lenient ∧
  length (invocations None
            (invoked (@dom_ready _ lenient search_only_page).2)) = 2.
Proof.
  assert (@keeps_elements _ lenient) as Hkeep by (by intros ? ? ? ? [= <-]).
  split; [exact Hkeep|].
  apply (@null_roots_count_absent_containers _ lenient search_only_page _
           Hkeep eq_refl).
Defined.

(** ** Events that do nothing *)

Lemma page_eta p : Page (dom p) (bound p) = p.
Proof. by destruct p. Qed.

(** X4: when no element carries the id [cds-navbar-form-input] at the
    time the ready callback runs, nothing is bound, and no sequence of
    events ever changes the page: it stays as it was loaded, marker
    classes included. *)
Theorem absent_input_page_is_inert d0 evs :
  getElementById d0 "cds-navbar-form-input" = None →
  run d0 evs = loaded d0.
Proof.
  intros Hget.
  assert (ready_search (loaded d0) = loaded d0) as Hready.
  { unfold ready_search, jq_id, loaded. cbn [dom]. by rewrite Hget. }
  induction evs as [|ev evs IH] using rev_ind.
  - exact Hready.
  - rewrite run_snoc, IH. reflexivity.
Qed.

Lemma absent_input_page_is_inert_witness :
  getElementById no_input_page "cds-navbar-form-input" = None ∧
  run no_input_page [Event Blur 0; Event Focus 1; Event Blur 1]
  = loaded no_input_page.
Proof.
  split; [reflexivity|].
  apply (absent_input_page_is_inert no_input_page); reflexivity.
Defined.

(** X5: at any point of the page's life, an event that is not a focus or
    a blur, or whose target is not the node the id selector resolved to
    when the ready callback ran (a second element carrying the same id
    included), leaves the page exactly as it is. *)
Theorem other_events_change_nothing d0 evs p ev :
  lifetime d0 evs p →
  ev_type ev = OtherEvent ∨
    getElementById d0 "cds-navbar-form-input" ≠ Some (ev_node ev) →
  dispatch ev p = p.
Proof.
  intros Hp Hev. rewrite <-(page_eta p) at 2.
  unfold dispatch at 1. f_equal. change (dom (dispatch ev p) = dom p).
  apply (dispatch_idle d0 evs); [done| |]; intros [Hty Hin];
    destruct Hev as [Hother|Hnode]; congruence.
Qed.

Lemma other_events_change_nothing_witness :
  getElementById twin_inputs_page "cds-navbar-form-input" ≠ Some 1 ∧
  dispatch (Event Focus 1) (run twin_inputs_page [Event Blur 0])
  = run twin_inputs_page [Event Blur 0].
Proof.
  split; [compute_done|].
  apply (other_events_change_nothing twin_inputs_page [Event Blur 0]).
  - apply lifetime_run.
  - right. compute_done.
Defined.

(** ** What stays fixed over the life of the page *)

Lemma getElementById_fmap (g : element → element) d id :
  (∀ e, el_id (g e) = el_id e) →
  getElementById (g <$> d) id = getElementById d id.
Proof.
  intros Hg. unfold getElementById. rewrite list_find_fmap.
  rewrite <-option_fmap_compose.
  rewrite (list_find_ext ((λ e, el_id e = id) ∘ g) (λ e, el_id e = id))
    by (intros e; simpl; by rewrite Hg).
  by destruct (list_find _ d) as [[??]|].
Qed.

Lemma positions_fmap (P : element → Prop) `{!∀ e, Decision (P e)}
    (g : element → element) n d :
  (∀ e, P (g e) ↔ P e) → positions P n (g <$> d) = positions P n d.
Proof.
  intros Hg. revert n. induction d as [|e d IH]; intros n; [done|].
  cbn [fmap list_fmap positions].
  destruct (decide (P e)) as [He|He].
  - rewrite decide_True by by apply Hg. f_equal. apply IH.
  - rewrite decide_False by by rewrite Hg. apply IH.
Qed.

(** X6: over the whole life of the page the listeners of this file never
    add, drop or rename an element and never bind anything more: the ids
    in document order, every [getElementById] result, the collection
    selected by [.cds-navbar-form] and the bound listeners are those of
    the moment the ready callback returned. *)
Theorem lifetime_keeps_structure d0 evs p :
  lifetime d0 evs p →
  el_id <$> dom p = el_id <$> d0 ∧
  (∀ id, getElementById (dom p) id = getElementById d0 id) ∧
  jq_class "cds-navbar-form" (dom p) = jq_class "cds-navbar-form" d0 ∧
  bound p = bound (ready_search (loaded d0)) ∧
  length (bound p) ≤ 2.
Proof.
  intros Hp. destruct (lifetime_dom _ _ _ Hp) as (g & -> & Hsame).
  split_and!.
  - rewrite <-list_fmap_compose. apply list_fmap_ext. intros ? e _.
    apply (Hsame e).
  - intros id. apply getElementById_fmap. intros e. apply (Hsame e).
  - unfold jq_class. apply positions_fmap. intros e.
    apply (same_but_active_container _ _ (Hsame e)).
  - by apply lifetime_bound in Hp.
  - rewrite (lifetime_bound _ _ _ Hp), bound_ready_search.
    destruct (getElementById d0 _); simpl; lia.
Qed.

Lemma lifetime_keeps_structure_witness :
  lifetime two_forms_page (cycles 0 3) (run two_forms_page (cycles 0 3)) ∧
  jq_class "cds-navbar-form" (dom (run two_forms_page (cycles 0 3)))
  = jq_class "cds-navbar-form" two_forms_page.
Proof.
  split; [apply lifetime_run|].
  apply (lifetime_keeps_structure two_forms_page (cycles 0 3)).
  apply lifetime_run.
Defined.

(** ** The last event decides *)

Lemma on_containers_remove_same e e' :
  same_but_active e e' →
  on_containers (remove_token "cds-active-search") e'
  = on_containers (remove_token "cds-active-search") e.
Proof.
  intros Hs. pose proof (same_but_active_container _ _ Hs) as Hc.
  destruct Hs as (Hid & Hf & Hn). unfold on_containers.
  destruct (decide (is_container e)) as [He|He].
  - rewrite decide_True by by apply Hc.
    unfold with_classes, remove_token. by rewrite Hid, Hf.
  - rewrite (Hn He). by rewrite decide_False.
Qed.

Lemma blur_dom d0 evs p ev :
  lifetime d0 evs p → blurs_input d0 ev →
  dom (dispatch ev p)
  = on_containers (remove_token "cds-active-search") <$> d0.
Proof.
  intros Hp Hb. rewrite (dispatch_blur _ _ _ _ Hp Hb).
  destruct (lifetime_dom _ _ _ Hp) as (g & -> & Hsame).
  rewrite <-list_fmap_compose. apply list_fmap_ext. intros ? e _. simpl.
  apply on_containers_remove_same, Hsame.
Qed.

Lemma fmap_on_containers_id f (d : list element) :
  (∀ i e, d !! i = Some e → is_container e → with_classes f e = e) →
  on_containers f <$> d = d.
Proof.
  intros Hf. rewrite <-(list_fmap_id d) at 2. apply list_fmap_ext.
  intros i e He. simpl. unfold on_containers. case_decide; eauto.
Qed.

(** X7: a blur on the search input wipes the history: whatever events
    came before, the page after it is, token for token, the loaded page
    with the marker removed from its containers; when no container
    carried the marker at load time, it is the loaded page itself. *)
Theorem blur_forgets_history d0 evs p ev :
  lifetime d0 evs p → blurs_input d0 ev →
  dom (dispatch ev p)
  = on_containers (remove_token "cds-active-search") <$> d0 ∧
  (none_active d0 → dom (dispatch ev p) = d0).
Proof.
  intros Hp Hb. rewrite (blur_dom _ _ _ _ Hp Hb). split; [done|].
  intros H0. apply fmap_on_containers_id. intros i e He Hc.
  unfold with_classes. rewrite remove_token_absent by by eapply H0.
  by destruct e.
Qed.

Lemma blur_forgets_history_witness :
  blurs_input home_page (Event Blur 1) ∧
  none_active home_page ∧
  dom (dispatch (Event Blur 1) (run home_page (cycles 1 2))) = home_page.
Proof.
  assert (none_active home_page) as H0
    by (apply none_active_Forall; compute_done).
  split; [by vm_compute|]. split; [exact H0|].
  apply (blur_forgets_history home_page (cycles 1 2)
           (run home_page (cycles 1 2)) (Event Blur 1)
           (lifetime_run _ _) ltac:(by vm_compute)).
  exact H0.
Defined.

Lemma add_after_remove cs :
  add_token "cds-active-search" (remove_token "cds-active-search" cs)
  = marker_last cs.
Proof.
  unfold add_token, marker_last. rewrite decide_False; [done|].
  rewrite elem_of_remove_token. by intros [? _].
Qed.

(** X8: a blur followed by a focus on the search input leaves every
    container with its loaded class tokens, without the marker, followed
    by exactly one marker at the end, whatever events came before; the
    other elements are as loaded.  A marker that the page was served with
    in the middle of the attribute has therefore moved to the end. *)
Theorem blur_then_focus_puts_marker_last d0 evs p ev1 ev2 :
  lifetime d0 evs p → blurs_input d0 ev1 → focuses_input d0 ev2 →
  dom (dispatch ev2 (dispatch ev1 p)) = on_containers marker_last <$> d0.
Proof.
  intros Hp Hb Hf.
  rewrite (dispatch_focus d0 (evs ++ [ev1]) _ _ (lifetime_event _ _ _ _ Hp) Hf).
  rewrite (blur_dom _ _ _ _ Hp Hb), <-list_fmap_compose.
  apply list_fmap_ext. intros ? e _. simpl.
  destruct (decide (is_container e)) as [Hc|Hc].
  - assert (on_containers (remove_token "cds-active-search") e
            = with_classes (remove_token "cds-active-search") e) as ->.
    { unfold on_containers. by rewrite decide_True. }
    unfold on_containers.
    rewrite !decide_True by (done || by apply is_container_remove).
    unfold with_classes; simpl. by rewrite add_after_remove.
  - unfold on_containers at 2. rewrite decide_False by done.
    unfold on_containers. by rewrite !decide_False.
Qed.

Lemma blur_then_focus_puts_marker_last_witness :
  blurs_input twin_inputs_page (Event Blur 0) ∧
  focuses_input twin_inputs_page (Event Focus 0) ∧
  dom (dispatch (Event Focus 0)
         (dispatch (Event Blur 0) (run twin_inputs_page [])))
  = [Element "cds-navbar-form-input" [];
     Element "cds-navbar-form-input" ["second"];
     Element "" ["cds-navbar-form"; "cds-active-search"]].
Proof.
  split; [by vm_compute|]. split; [by vm_compute|].
  apply (blur_then_focus_puts_marker_last twin_inputs_page []).
  - apply lifetime_run.
  - by vm_compute.
  - by vm_compute.
Defined.

(** X9: whatever events came before, after a focus on the search input
    every element has the id and the class set it would have had if that
    focus had been the first event after loading: for a container the
    loaded class set with the marker added, for any other element the
    loaded class set. *)
Theorem focus_forgets_history d0 evs p ev :
  lifetime d0 evs p → focuses_input d0 ev →
  view <$> dom (dispatch ev p) = view <$> dom (run d0 [ev]) ∧
  ∀ i e, d0 !! i = Some e →
    ∃ e', dom (dispatch ev p) !! i = Some e' ∧
          el_id e' = el_id e ∧
          class_set e' =
            if decide (is_container e)
            then {["cds-active-search"]} ∪ class_set e
            else class_set e.
Proof.
  intros Hp Hf. split.
  - rewrite run_single.
    rewrite (focus_view _ _ _ _ Hp Hf).
    by rewrite (focus_view d0 [] _ _ (lifetime_run _ _) Hf).
  - intros i e He.
    pose proof (focus_view _ _ _ _ Hp Hf) as Hv.
    remember (dom (dispatch ev p)) as q eqn:Hq. clear Hq.
    apply (f_equal (λ l, l !! i)) in Hv.
    rewrite !list_lookup_fmap, He in Hv.
    destruct (q !! i) as [e'|]; simpl in Hv; [|discriminate].
    exists e'. split; [done|]. unfold view in Hv.
    injection Hv as Hid Hcs. rewrite Hid, Hcs.
    unfold on_containers. case_decide; [|done].
    split; [done|apply class_set_add].
Qed.

Lemma focus_forgets_history_witness :
  focuses_input two_forms_page (Event Focus 0) ∧
  view <$>
    dom (dispatch (Event Focus 0)
           (run two_forms_page [Event Blur 0; Event OtherEvent 2]))
  = view <$> dom (run two_forms_page [Event Focus 0]).
Proof.
  split; [by vm_compute|].
  apply (focus_forgets_history two_forms_page
           [Event Blur 0; Event OtherEvent 2]).
  - apply lifetime_run.
  - by vm_compute.
Defined.

(** ** Duplicate-free class attributes *)

(** X10: if every class attribute of the loaded page is free of repeated
    tokens, so is every class attribute at every later point of the
    page's life; in particular no container ever carries the marker
    twice. *)
Theorem lifetime_keeps_NoDup d0 evs p :
  Forall (λ e, NoDup (el_classes e)) d0 →
  lifetime d0 evs p →
  Forall (λ e, NoDup (el_classes e)) (dom p).
Proof.
  intros H0. induction 1 as [|evs p ev Hp IH]; [done|].
  destruct (decide (focuses_input d0 ev)) as [Hf|Hf];
    [|destruct (decide (blurs_input d0 ev)) as [Hb|Hb]].
  - rewrite (dispatch_focus _ _ _ _ Hp Hf). apply Forall_fmap.
    eapply Forall_impl; [exact IH|]. intros e Hnd. simpl.
    unfold on_containers. case_decide; [|done]. by apply NoDup_add_token.
  - rewrite (dispatch_blur _ _ _ _ Hp Hb). apply Forall_fmap.
    eapply Forall_impl; [exact IH|]. intros e Hnd. simpl.
    unfold on_containers. case_decide; [|done]. by apply NoDup_filter.
  - by rewrite (dispatch_idle _ _ _ _ Hp Hf Hb).
Qed.

Lemma lifetime_keeps_NoDup_witness :
  Forall (λ e, NoDup (el_classes e)) two_forms_page ∧
  Forall (λ e, NoDup (el_classes e))
    (dom (run two_forms_page (cycles 0 2))).
Proof.
  assert (Forall (λ e, NoDup (el_classes e)) two_forms_page) as H0
    by compute_done.
  split; [exact H0|].
  apply (lifetime_keeps_NoDup two_forms_page (cycles 0 2) _ H0).
  apply lifetime_run.
Defined.

(** ** Running the second ready callback twice *)

Lemma on_containers_remove_idemp e :
  on_containers (remove_token "cds-active-search")
    (on_containers (remove_token "cds-active-search") e)
  = on_containers (remove_token "cds-active-search") e.
Proof.
  apply on_containers_remove_same, same_but_active_remove.
Qed.

Lemma call_listener_twice fn d :
  call_listener fn (call_listener fn d) = call_listener fn d.
Proof.
  destruct fn.
  - rewrite !call_focus_listener, <-list_fmap_compose.
    apply list_fmap_ext. intros ? e _. apply on_containers_add_idemp.
  - rewrite !call_blur_listener, <-list_fmap_compose.
    apply list_fmap_ext. intros ? e _. apply on_containers_remove_idemp.
Qed.

Lemma foldl_dispatch_bound p evs :
  bound (foldl (λ p ev, dispatch ev p) p evs) = bound p.
Proof.
  induction evs as [|ev evs IH] using rev_ind; [done|].
  by rewrite foldl_snoc.
Qed.

(** X11: if the second ready callback runs twice on the same page (the
    script included twice), the listeners are bound twice, yet after any
    sequence of events the elements of the page are exactly those that a
    single registration gives. *)
Theorem double_registration_same_elements d0 evs :
  length (bound (ready_search (ready_search (loaded d0))))
  = 2 * length (bound (ready_search (loaded d0))) ∧
  dom (foldl (λ p ev, dispatch ev p)
         (ready_search (ready_search (loaded d0))) evs)
  = dom (run d0 evs).
Proof.
  assert (bound (ready_search (ready_search (loaded d0)))
          = bound (ready_search (loaded d0))
            ++ bound (ready_search (loaded d0))) as Hb2.
  { unfold ready_search, jq_on, jq_id, loaded. cbn [dom bound].
    by destruct (getElementById d0 "cds-navbar-form-input"). }
  split; [rewrite Hb2, length_app; lia|].
  unfold run. induction evs as [|ev evs IH] using rev_ind; [done|].
  rewrite !foldl_snoc. unfold dispatch at 1 3. cbn [dom].
  rewrite IH, !foldl_dispatch_bound, Hb2, filter_app, foldl_app.
  rewrite bound_ready_search.
  destruct (getElementById d0 "cds-navbar-form-input") as [i|]; [|done].
  rewrite !filter_cons, filter_nil.
  repeat case_decide; cbn [foldl app b_fn];
    first [ by rewrite ?call_listener_twice
          | unfold listens in *; simpl in *; exfalso; intuition congruence ].
Qed.

Lemma double_registration_same_elements_witness :
  length (bound (ready_search (ready_search (loaded two_forms_page)))) = 4 ∧
  dom (foldl (λ p ev, dispatch ev p)
         (ready_search (ready_search (loaded two_forms_page))) (cycles 0 2))
  = dom (run two_forms_page (cycles 0 2)).
Proof.
  split; [reflexivity|].
  apply (double_registration_same_elements two_forms_page (cycles 0 2)).
Defined.
